(** * nextclade_latch: the workflow of [wf/__init__.py], embedded in Rocq

    The repository wires three platform tasks around the external
    [nextclade] binary.  Everything the tasks do is an effect: they spawn a
    process, print, send platform messages, and either return a directory
    reference or raise.  The embedding therefore runs every task in a small
    monad that threads the log of observable events and carries the Python
    exception, and takes the things the code gets from outside as
    variables of a section: what [Path(p).resolve()] answers on the worker,
    what a spawned command does (its exit code and output lines), and where
    the platform places the local copy of a file or directory that one task
    hands to the next. *)

From Stdlib Require Import String Ascii List ZArith Lia Bool.
Import ListNotations.
Open Scope list_scope.
Open Scope string_scope.

(** ** Python strings *)

Module Py.

(** [sep.join(parts)] *)
Definition join (sep : string) (parts : list string) : string :=
  String.concat sep parts.

(** the characters of all the parts together *)
Definition total_length (parts : list string) : nat :=
  fold_right (fun part n => String.length part + n) 0 parts.

(** the one-character string with a line feed *)
Definition LF : string := String (ascii_of_nat 10) EmptyString.

(** A Python [str] is a sequence of characters; here it is held as the
    bytes of its UTF-8 form.  A character is then a byte that is no
    continuation byte (a byte [10xxxxxx]) together with the continuation
    bytes that follow it. *)
Definition is_continuation (c : ascii) : bool :=
  match c with
  | Ascii _ _ _ _ _ _ b6 b7 => b7 && negb b6
  end.

(** [len(s)]: the number of characters *)
Fixpoint len (s : string) : nat :=
  match s with
  | EmptyString => 0
  | String c rest => if is_continuation c then len rest else S (len rest)
  end.

(** the continuation bytes a text starts with *)
Fixpoint continuation (s : string) : string :=
  match s with
  | EmptyString => EmptyString
  | String c rest =>
      if is_continuation c then String c (continuation rest)
      else EmptyString
  end.

(** [s[i]] for a non-negative [i]: the string of the one character at
    position [i], counted in characters, or nothing when [i] is past the
    end (Python raises IndexError there). *)
Fixpoint getitem (s : string) (i : nat) : option string :=
  match s with
  | EmptyString => None
  | String c rest =>
      if is_continuation c then getitem rest i
      else
        match i with
        | 0 => Some (String c (continuation rest))
        | S i' => getitem rest i'
        end
  end.

(** [s.startswith(p)] *)
Definition startswith (p s : string) : bool := String.prefix p s.

Definition is_LF (c : ascii) : bool := Ascii.eqb c (ascii_of_nat 10).

(** [re.findall("Message.*", s)]: the scan goes left to right; a match
    starts at the first position where the text reads [Message] and, [.]
    matching every character but the line feed and [*] being greedy, runs
    to the end of that line; the scan goes on after the match.
    [cur] is the match being read, if any. *)
Fixpoint findall_from (cur : option string) (s : string) : list string :=
  match s with
  | EmptyString =>
      match cur with
      | Some m => [m]
      | None => []
      end
  | String c rest =>
      match cur with
      | Some m =>
          if is_LF c then m :: findall_from None rest
          else findall_from (Some (m ++ String c EmptyString)) rest
      | None =>
          if startswith "Message" s
          then findall_from (Some (String c EmptyString)) rest
          else findall_from None rest
      end
  end.

Definition findall_Message (s : string) : list string :=
  findall_from None s.

End Py.

(** ** Data model *)

(** [latch.types.LatchFile] and [LatchDir], as far as the code reads them:
    the path on the worker and the remote path. *)
Record LatchFile : Type := mkLatchFile {
  file_local_path : string;
  file_remote_path : string
}.

Record LatchDir : Type := mkLatchDir {
  local_path : string;
  remote_path : string
}.

Record Sample : Type := mkSample {
  sample_name : string;
  sample_fasta : LatchFile
}.

Inductive Database : Type :=
| sars_cov_2
| MPXV
| hMPXV
| hMPXV_B1
| flu_h1n1pdm_ha
| flu_h3n2_ha
| flu_vic_ha
| flu_yam_ha.

(** [Database.<member>.value] *)
Definition value (d : Database) : string :=
  match d with
  | sars_cov_2 => "sars-cov-2"
  | MPXV => "MPXV"
  | hMPXV => "hMPXV"
  | hMPXV_B1 => "hMPXV_B1"
  | flu_h1n1pdm_ha => "flu_h1n1pdm_ha"
  | flu_h3n2_ha => "flu_h3n2_ha"
  | flu_vic_ha => "flu_vic_ha"
  | flu_yam_ha => "flu_yam_ha"
  end.

Record NextcladeInput : Type := mkNextcladeInput {
  name : string;
  fasta : LatchFile;
  database : LatchDir
}.

(** ** The platform between the tasks *)

(** A file or directory reference that goes from one task to the next, or
    back to the caller, is not handed over as it is: the platform stores
    the content under the remote path, and whoever receives the reference
    gets a copy at a local path of the platform's choosing.  The places
    where the workflow's references are received: *)
Inductive site : Type :=
| AtPrepare
| AtRun (i : nat)
| AtCaller (i : nat).

(** [enumerate(xs, k)] *)
Fixpoint enumerate {A} (k : nat) (xs : list A) : list (nat * A) :=
  match xs with
  | [] => []
  | x :: xs' => (k, x) :: enumerate (S k) xs'
  end.

(** ** Task decorators *)

Record V1ResourceRequirements : Type := mkResources {
  requests : list (string * string);
  limits : list (string * string)
}.

Record V1Toleration : Type := mkToleration {
  effect : string;
  key : string;
  toleration_value : string
}.

Record Pod : Type := mkPod {
  primary_container_name : string;
  resources : V1ResourceRequirements;
  tolerations : list V1Toleration
}.

Definition _get_96_spot_pod : Pod :=
  {| primary_container_name := "primary";
     resources :=
       {| requests := [("cpu", "90"); ("memory", "170Gi")];
          limits := [("cpu", "96"); ("memory", "192Gi")] |};
     tolerations :=
       [ {| effect := "NoSchedule"; key := "ng";
            toleration_value := "cpu-96-spot" |} ] |}.

(** what [flytekit.task(...)] was called with *)
Record task_settings : Type := mkTask {
  task_config : Pod;
  retries : nat
}.

Definition large_spot_task : task_settings :=
  {| task_config := _get_96_spot_pod; retries := 3 |}.

(** ** Effects *)

(** A finished child process: [returncode] and the lines its combined
    stdout+stderr pipe yielded, each with its line end as Python hands it
    over. *)
Record process : Type := mkProcess {
  returncode : Z;
  stdout : list string
}.

Inductive event : Type :=
| EvSpawn (command : list string)
| EvPrint (text : string)
| EvMessage (level title body : string).

Inductive exn : Type :=
| RuntimeError
| IndexError.

Inductive outcome (A : Type) : Type :=
| Ret (a : A)
| Raise (e : exn).
Arguments Ret {A} a.
Arguments Raise {A} e.

(** A computation reads the log so far and answers with an outcome and the
    log extended by what it did. *)
Definition io (A : Type) : Type := list event -> outcome A * list event.

Definition ret {A} (a : A) : io A := fun log => (Ret a, log).

Definition raise {A} (e : exn) : io A := fun log => (Raise e, log).

Definition bind {A B} (m : io A) (k : A -> io B) : io B :=
  fun log =>
    match m log with
    | (Ret a, log') => k a log'
    | (Raise e, log') => (Raise e, log')
    end.

Definition emit (e : event) : io unit := fun log => (Ret tt, (log ++ [e])%list).

Notation "x <- m ;; k" := (bind m (fun x => k))
  (at level 61, m at next level, right associativity).
Notation "m ;;; k" := (bind m (fun _ => k))
  (at level 61, right associativity).

(** [for x in xs: body(x)] *)
Fixpoint for_each {A} (xs : list A) (body : A -> io unit) : io unit :=
  match xs with
  | [] => ret tt
  | x :: xs' => body x ;;; for_each xs' body
  end.

(** [print(text)] *)
Definition print (text : string) : io unit := emit (EvPrint text).

(** [latch.message(level, {"title": title, "body": body})] *)
Definition message (level title body : string) : io unit :=
  emit (EvMessage level title body).

(** the commands spawned, the messages of a level, in a log *)
Definition spawned (log : list event) : list (list string) :=
  flat_map (fun e => match e with EvSpawn c => [c] | _ => [] end) log.

Definition messages_of (level : string) (log : list event) : list string :=
  flat_map (fun e =>
    match e with
    | EvMessage l _ b => if String.eqb l level then [b] else []
    | _ => []
    end) log.

(** [for line in process.stdout: print(line); captured.append(line)] *)
Fixpoint read_lines (lines captured : list string) : io (list string) :=
  match lines with
  | [] => ret captured
  | line :: rest => print line ;;; read_lines rest (captured ++ [line])%list
  end.

Section Workflow.

(** [str(Path(p).resolve())] on the worker *)
Variable resolve : string -> string.

(** what running a command line does *)
Variable exec : list string -> process.

(** where the platform puts, for the task at a site, the local copy of
    what is stored under a remote path *)
Variable placed : site -> string -> string.

Definition receive_file (w : site) (f : LatchFile) : LatchFile :=
  {| file_local_path := placed w (file_remote_path f);
     file_remote_path := file_remote_path f |}.

Definition receive_dir (w : site) (d : LatchDir) : LatchDir :=
  {| local_path := placed w (remote_path d);
     remote_path := remote_path d |}.

Definition receive_sample (w : site) (sample : Sample) : Sample :=
  {| sample_name := sample_name sample;
     sample_fasta := receive_file w (sample_fasta sample) |}.

Definition receive_input (w : site) (nc_input : NextcladeInput)
    : NextcladeInput :=
  {| name := name nc_input;
     fasta := receive_file w (fasta nc_input);
     database := receive_dir w (database nc_input) |}.

(** [subprocess.Popen(command, stdout=PIPE, stderr=STDOUT, ...)], read
    line by line until the pipe closes, then waited for.  With
    [stdout=PIPE] the assertion on [process.stdout] cannot fail. *)
Definition _capture_output (command : list string) : io (Z * string) :=
  emit (EvSpawn command) ;;;
  let p := exec command in
  captured_stdout <- read_lines (stdout p) [] ;;
  let returncode := returncode p in
  ret (returncode, Py.join Py.LF captured_stdout).

(** [subprocess.run(command)]: the child inherits the parent's streams,
    and the [CompletedProcess] that comes back holds the exit code. *)
Definition subprocess_run (command : list string) : io Z :=
  emit (EvSpawn command) ;;;
  ret (returncode (exec command)).

Definition database_outname (database_name : Database) : string :=
  "nextclade_database/" ++ value database_name.

Definition get_database_cmd (database_name : Database) : list string :=
  [ "nextclade"; "dataset"; "get";
    "--name"; value database_name;
    "--output-dir"; database_outname database_name ].

Definition get_database (database_name : Database) : io LatchDir :=
  let database_outdir := resolve (database_outname database_name) in
  let _nextclade_cmd := get_database_cmd database_name in
  message "info"
    ("Downloading NextClade database " ++ value database_name)
    ("Running command: " ++ Py.join "" _nextclade_cmd) ;;;
  _completed <- subprocess_run _nextclade_cmd ;;
  ret (mkLatchDir database_outdir
         ("latch:///" ++ database_outname database_name ++ "/")).

(** the input the loop below builds for one sample *)
Definition input_of (database : LatchDir) (sample : Sample) : NextcladeInput :=
  {| name := sample_name sample;
     fasta := sample_fasta sample;
     database := database |}.

(** [inputs = []; for sample in samples: inputs.append(...)] *)
Definition prepare_nextclade_inputs
    (samples : list Sample) (database : LatchDir) : list NextcladeInput :=
  fold_left
    (fun inputs sample =>
       let cur_input :=
         {| name := sample_name sample;
            fasta := sample_fasta sample;
            database := database |} in
       (inputs ++ [cur_input])%list)
    samples [].

Definition output_dirname (nc_input : NextcladeInput) : string :=
  name nc_input.

Definition output_remote_path (nc_input : NextcladeInput) : string :=
  "latch:///nextclade_outputs/" ++ output_dirname nc_input.

Definition run_nextclade_cmd (nc_input : NextcladeInput) : list string :=
  [ "nextclade"; "run";
    "--input-dataset"; local_path (database nc_input);
    "--output-all"; output_dirname nc_input;
    file_local_path (fasta nc_input) ].

(** [stdout[1]] *)
Definition stdout_at_1 (stdout : string) : io string :=
  match Py.getitem stdout 1 with
  | Some c => ret c
  | None => raise IndexError
  end.

Definition run_nextclade (nc_input : NextcladeInput) : io LatchDir :=
  let output_dir := resolve (output_dirname nc_input) in
  let _nextclade_cmd := run_nextclade_cmd nc_input in
  captured <- _capture_output _nextclade_cmd ;;
  let '(return_code, stdout) := captured in
  let running_cmd := Py.join " " _nextclade_cmd in
  message "info"
    ("Executing NextClade for " ++ name nc_input) running_cmd ;;;
  if negb (return_code =? 0)%Z then
    indexed <- stdout_at_1 stdout ;;
    let errors := Py.findall_Message indexed in
    for_each errors (fun error =>
      message "error"
        ("An error was raised while running NextClade for "
           ++ name nc_input ++ ":")
        error) ;;;
    raise RuntimeError
  else
    ret (mkLatchDir output_dir (output_remote_path nc_input)).

(** the log of a run of [run_nextclade], up to the test of the exit
    code *)
Definition run_log (nc_input : NextcladeInput) (log : list event)
    : list event :=
  (log ++ EvSpawn (run_nextclade_cmd nc_input)
        :: map EvPrint (stdout (exec (run_nextclade_cmd nc_input)))
        ++ [EvMessage "info"
              ("Executing NextClade for " ++ name nc_input)
              (Py.join " " (run_nextclade_cmd nc_input))])%list.

(** the directory a successful run hands back *)
Definition output_of (nc_input : NextcladeInput) : LatchDir :=
  {| local_path := resolve (name nc_input);
     remote_path := "latch:///nextclade_outputs/" ++ name nc_input |}.

(** [@large_spot_task] on [run_nextclade] *)
Definition run_nextclade_settings : task_settings := large_spot_task.

(** [map_task(f)(nc_input=xs)]: one run of [f] per element, the k-th on
    the element as received at [AtRun k], and the results, as the caller
    receives them, in the order of the elements; a run that raises fails
    the node.  How the platform spreads the runs over workers, and whether
    it goes on after a failure, is outside the repository; here the runs
    are logged one after the other, up to the first that raises. *)
Fixpoint map_task_from {A B}
    (receive : site -> A -> A) (deliver : site -> B -> B)
    (f : A -> io B) (k : nat) (xs : list A) : io (list B) :=
  match xs with
  | [] => ret []
  | x :: xs' =>
      y <- f (receive (AtRun k) x) ;;
      ys <- map_task_from receive deliver f (S k) xs' ;;
      ret (deliver (AtCaller k) y :: ys)
  end.

Definition map_task {A B}
    (receive : site -> A -> A) (deliver : site -> B -> B)
    (f : A -> io B) (xs : list A) : io (list B) :=
  map_task_from receive deliver f 0 xs.

(** what the run of index [fst p] of a mapped [run_nextclade] spawns on
    the element [snd p], and what the caller gets from it when it
    returns *)
Definition mapped_cmd (p : nat * NextcladeInput) : list string :=
  run_nextclade_cmd (receive_input (AtRun (fst p)) (snd p)).

Definition mapped_output (p : nat * NextcladeInput) : LatchDir :=
  receive_dir (AtCaller (fst p))
    (output_of (receive_input (AtRun (fst p)) (snd p))).

(** The body of the workflow; [prepare_nextclade_inputs] is a task too
    and gets its arguments as received at [AtPrepare]. *)
Definition nextclade (samples : list Sample) (database_name : Database)
    : io (list LatchDir) :=
  database <- get_database database_name ;;
  let nextclade_inputs :=
    prepare_nextclade_inputs
      (map (receive_sample AtPrepare) samples)
      (receive_dir AtPrepare database) in
  map_task receive_input receive_dir run_nextclade nextclade_inputs.

End Workflow.

(** ** A worker to try the tasks on *)

Module Demo.

Definition resolve (p : string) : string := "/root/" ++ p.

(** a platform that keeps one directory of copies per site *)
Definition placed (w : site) (remote : string) : string :=
  match w with
  | AtPrepare => "/prepare/"
  | AtRun _ => "/run/"
  | AtCaller _ => "/caller/"
  end ++ remote.

Definition cluster_cov : Sample :=
  {| sample_name := "cluster_cov";
     sample_fasta :=
       {| file_local_path := "/tmp/cluster_cov.fasta";
          file_remote_path :=
            "s3://latch-public/test-data/4318/cluster_cov.fasta" |} |}.

Definition sars_sequences : Sample :=
  {| sample_name := "sars_sequences";
     sample_fasta :=
       {| file_local_path := "/tmp/sars_sequences.fasta";
          file_remote_path :=
            "s3://latch-public/test-data/4318/sars_sequences.fasta" |} |}.

Definition samples : list Sample := [cluster_cov; sars_sequences].

(** every command succeeds and says one line *)
Definition exec_ok (_ : list string) : process :=
  {| returncode := 0; stdout := ["done" ++ Py.LF] |}.

(** every command fails without a word *)
Definition exec_silent_failure (_ : list string) : process :=
  {| returncode := 1; stdout := [] |}.

(** every command fails after an error report of two lines *)
(** one character of three bytes in UTF-8 (U+4E2D) *)
Definition wide_character : string :=
  String (ascii_of_nat 228)
    (String (ascii_of_nat 184) (String (ascii_of_nat 173) EmptyString)).

(** every command fails and writes that one character, without a line
    end *)
Definition exec_wide_character (_ : list string) : process :=
  {| returncode := 1; stdout := [wide_character] |}.

(** every command is killed before it says a word *)
Definition exec_killed (_ : list string) : process :=
  {| returncode := -9; stdout := [] |}.

Definition exec_reported_failure (_ : list string) : process :=
  {| returncode := 1;
     stdout := [ "Error: " ++ Py.LF;
                 "Message: unable to read dataset" ++ Py.LF ] |}.

Definition sars_db : LatchDir :=
  {| local_path := "/root/nextclade_database/sars-cov-2";
     remote_path := "latch:///nextclade_database/sars-cov-2/" |}.

Definition input1 : NextcladeInput :=
  {| name := "cluster_cov";
     fasta := sample_fasta cluster_cov;
     database := sars_db |}.

(** the same name as [input1], another file and another database *)
Definition input1' : NextcladeInput :=
  {| name := "cluster_cov";
     fasta := sample_fasta sars_sequences;
     database :=
       {| local_path := "/root/nextclade_database/MPXV";
          remote_path := "latch:///nextclade_database/MPXV/" |} |}.

End Demo.

(** ** The monad on a log *)

Lemma bind_ret_l {A B} (a : A) (k : A -> io B) log :
  bind (ret a) k log = k a log.
Proof. reflexivity. Qed.

Lemma bind_emit {B} (e : event) (k : unit -> io B) log :
  bind (emit e) k log = k tt (log ++ [e])%list.
Proof. reflexivity. Qed.

Lemma bind_Ret {A B} (m : io A) (k : A -> io B) log a log' :
  m log = (Ret a, log') -> bind m k log = k a log'.
Proof. intros H. unfold bind. now rewrite H. Qed.

Lemma spawned_app (l1 l2 : list event) :
  spawned (l1 ++ l2) = (spawned l1 ++ spawned l2)%list.
Proof. unfold spawned. apply flat_map_app. Qed.

Lemma spawned_prints (lines : list string) :
  spawned (map EvPrint lines) = [].
Proof. induction lines as [|l ls IH]; simpl; auto. Qed.

Lemma messages_of_app level (l1 l2 : list event) :
  messages_of level (l1 ++ l2) =
  (messages_of level l1 ++ messages_of level l2)%list.
Proof. unfold messages_of. apply flat_map_app. Qed.

Lemma messages_of_prints level (lines : list string) :
  messages_of level (map EvPrint lines) = [].
Proof. induction lines as [|l ls IH]; simpl; auto. Qed.

(** ** Python strings *)

Lemma prefix_length (p s : string) :
  String.prefix p s = true -> String.length p <= String.length s.
Proof.
  revert s. induction p as [|a p IH]; intros s H; simpl.
  - lia.
  - destruct s as [|b s]; simpl in H; [discriminate|].
    destruct (ascii_dec a b); [|discriminate].
    apply IH in H. simpl. lia.
Qed.

Lemma length_append (s1 s2 : string) :
  String.length (s1 ++ s2) = String.length s1 + String.length s2.
Proof. induction s1 as [|c s1 IH]; simpl; auto. Qed.

(** [sep.join] adds one separator less than there are parts. *)
Lemma join_length (sep : string) (parts : list string) :
  String.length (Py.join sep parts)
  = Py.total_length parts + String.length sep * (List.length parts - 1).
Proof.
  unfold Py.join.
  induction parts as [|x xs IH]; [simpl; lia|].
  destruct xs as [|y ys].
  - simpl. lia.
  - change (String.concat sep (x :: y :: ys))
      with (x ++ sep ++ String.concat sep (y :: ys)).
    rewrite !length_append, IH. simpl. lia.
Qed.

(** A text shorter than the word [Message] holds no match. *)
Lemma findall_Message_short (s : string) :
  String.length s < 7 -> Py.findall_Message s = [].
Proof.
  unfold Py.findall_Message.
  induction s as [|c s IH]; intros Hlen; [reflexivity|].
  cbn [Py.findall_from].
  destruct (Py.startswith "Message" (String c s)) eqn:Hp.
  - apply prefix_length in Hp. simpl in Hp, Hlen. lia.
  - apply IH. simpl in Hlen. lia.
Qed.

(** The scan on a text of four lines: a match runs to the end of its line,
    swallows a second [Message] on the way, and the last line needs no line
    feed. *)
Example findall_Message_lines :
  Py.findall_Message
    ("Error: " ++ Py.LF ++ "at Message: one Message two" ++ Py.LF
       ++ "Messag" ++ Py.LF ++ "Message")
  = ["Message: one Message two"; "Message"].
Proof. reflexivity. Qed.

Lemma len_le_length (s : string) : Py.len s <= String.length s.
Proof.
  induction s as [|c s IH]; simpl; [lia|].
  destruct (Py.is_continuation c); lia.
Qed.

Lemma len_append (s1 s2 : string) :
  Py.len (s1 ++ s2) = Py.len s1 + Py.len s2.
Proof.
  induction s1 as [|c s1 IH]; simpl; [reflexivity|].
  destruct (Py.is_continuation c); lia.
Qed.

Lemma getitem_None (s : string) (i : nat) :
  Py.getitem s i = None <-> Py.len s <= i.
Proof.
  revert i.
  induction s as [|c s IH]; intros i; simpl.
  - split; [lia|reflexivity].
  - destruct (Py.is_continuation c); [apply IH|].
    destruct i as [|i].
    + split; [discriminate|lia].
    + rewrite IH. lia.
Qed.

Lemma getitem_Some_iff (s : string) (i : nat) :
  (exists c, Py.getitem s i = Some c) <-> i < Py.len s.
Proof.
  destruct (Py.getitem s i) as [c|] eqn:H.
  - split; [|intros _; now exists c].
    intros _. destruct (Nat.lt_ge_cases i (Py.len s)) as [L|L]; auto.
    apply getitem_None in L. congruence.
  - apply getitem_None in H. split; [|lia].
    intros [c Hc]. discriminate.
Qed.

(** no match starts inside the continuation bytes of a character *)
Lemma findall_continuation (s : string) :
  Py.findall_from None (Py.continuation s) = [].
Proof.
  induction s as [|c s IH]; [reflexivity|].
  cbn [Py.continuation].
  destruct (Py.is_continuation c) eqn:Hc; [|reflexivity].
  cbn [Py.findall_from].
  replace (Py.startswith "Message" (String c (Py.continuation s)))
    with false; [exact IH|].
  unfold Py.startswith. cbn [String.prefix].
  destruct (ascii_dec "M" c) as [<-|]; [discriminate Hc|reflexivity].
Qed.

(** A single character never holds the word [Message]. *)
Lemma findall_Message_getitem (s : string) (i : nat) (c : string) :
  Py.getitem s i = Some c -> Py.findall_Message c = [].
Proof.
  revert i.
  induction s as [|b s IH]; intros i; simpl; [discriminate|].
  destruct (Py.is_continuation b); [apply IH|].
  destruct i as [|i]; [|apply IH].
  intros H. inversion H. subst c. clear H.
  unfold Py.findall_Message. cbn [Py.findall_from].
  replace (Py.startswith "Message" (String b (Py.continuation s)))
    with false; [apply findall_continuation|].
  unfold Py.startswith. cbn [String.prefix].
  destruct (ascii_dec "M" b); [|reflexivity].
  destruct s as [|c' s]; [reflexivity|].
  cbn [Py.continuation].
  destruct (Py.is_continuation c') eqn:Hc'; [|reflexivity].
  cbn [String.prefix].
  destruct (ascii_dec "e" c') as [<-|]; [discriminate Hc'|reflexivity].
Qed.

(** ** The reading loop and the two ways to spawn *)

Lemma read_lines_run (lines captured : list string) log :
  read_lines lines captured log =
  (Ret (captured ++ lines)%list, (log ++ map EvPrint lines)%list).
Proof.
  revert captured log.
  induction lines as [|l ls IH]; intros captured log; simpl.
  - unfold ret. now rewrite !app_nil_r.
  - unfold print. rewrite bind_emit, IH.
    now rewrite <- !app_assoc.
Qed.

Section Runs.

Variable resolve : string -> string.
Variable exec : list string -> process.

Lemma _capture_output_run (command : list string) log :
  _capture_output exec command log =
  (Ret (returncode (exec command),
        Py.join Py.LF (stdout (exec command))),
   (log ++ EvSpawn command :: map EvPrint (stdout (exec command)))%list).
Proof.
  unfold _capture_output.
  rewrite bind_emit.
  rewrite (bind_Ret _ _ _ _ _ (read_lines_run _ _ _)).
  unfold ret. simpl. now rewrite <- app_assoc.
Qed.

Lemma run_nextclade_run (nc_input : NextcladeInput) log :
  run_nextclade resolve exec nc_input log =
  let p := exec (run_nextclade_cmd nc_input) in
  if (returncode p =? 0)%Z then
    (Ret (mkLatchDir (resolve (name nc_input))
            ("latch:///nextclade_outputs/" ++ name nc_input)),
     run_log exec nc_input log)
  else
    match Py.getitem (Py.join Py.LF (stdout p)) 1 with
    | Some _ => (Raise RuntimeError, run_log exec nc_input log)
    | None => (Raise IndexError, run_log exec nc_input log)
    end.
Proof.
  unfold run_nextclade.
  rewrite (bind_Ret _ _ _ _ _ (_capture_output_run _ _)).
  unfold message. rewrite bind_emit.
  cbv zeta.
  assert (Hlog :
    ((log ++ EvSpawn (run_nextclade_cmd nc_input)
          :: map EvPrint (stdout (exec (run_nextclade_cmd nc_input))))
       ++ [EvMessage "info" ("Executing NextClade for " ++ name nc_input)
             (Py.join " " (run_nextclade_cmd nc_input))])%list
    = run_log exec nc_input log).
  { unfold run_log. now rewrite <- app_assoc. }
  rewrite Hlog.
  destruct (returncode (exec (run_nextclade_cmd nc_input)) =? 0)%Z;
    cbn [negb]; [reflexivity|].
  unfold stdout_at_1.
  destruct (Py.getitem _ 1) as [c|] eqn:Hc.
  - rewrite bind_ret_l.
    rewrite (findall_Message_getitem _ _ _ Hc). reflexivity.
  - reflexivity.
Qed.

Lemma get_database_run (database_name : Database) log :
  get_database resolve exec database_name log =
  (Ret (mkLatchDir (resolve ("nextclade_database/" ++ value database_name))
          ("latch:///nextclade_database/" ++ value database_name ++ "/")),
   (log ++ [ EvMessage "info"
               ("Downloading NextClade database " ++ value database_name)
               ("Running command: "
                  ++ Py.join "" (get_database_cmd database_name));
             EvSpawn (get_database_cmd database_name) ])%list).
Proof.
  unfold get_database, message, subprocess_run, database_outname.
  unfold bind, emit, ret.
  now rewrite <- app_assoc.
Qed.

(** A run returns exactly when the tool exits with 0, and raises
    otherwise. *)
Lemma run_nextclade_returns_iff (nc_input : NextcladeInput) log :
  (exists d, fst (run_nextclade resolve exec nc_input log) = Ret d)
  <-> returncode (exec (run_nextclade_cmd nc_input)) = 0%Z.
Proof.
  rewrite run_nextclade_run. cbv zeta.
  destruct (Z.eqb_spec (returncode (exec (run_nextclade_cmd nc_input))) 0)
    as [E|E].
  - split; [auto|]. intros _. eexists. reflexivity.
  - split; [|contradiction].
    intros [d Hd]. destruct (Py.getitem _ 1); discriminate.
Qed.

Lemma run_nextclade_raises_iff (nc_input : NextcladeInput) log :
  (exists e, fst (run_nextclade resolve exec nc_input log) = Raise e)
  <-> returncode (exec (run_nextclade_cmd nc_input)) <> 0%Z.
Proof.
  rewrite run_nextclade_run. cbv zeta.
  destruct (Z.eqb_spec (returncode (exec (run_nextclade_cmd nc_input))) 0)
    as [E|E].
  - split; [|contradiction]. intros [e He]. discriminate.
  - split; [auto|]. intros _.
    destruct (Py.getitem _ 1); eexists; reflexivity.
Qed.

(** No run sends a message of level [error]. *)
Lemma run_nextclade_no_error_message (nc_input : NextcladeInput) log :
  messages_of "error" (snd (run_nextclade resolve exec nc_input log)) =
  messages_of "error" log.
Proof.
  rewrite run_nextclade_run. cbv zeta.
  assert (H : messages_of "error" (run_log exec nc_input log)
              = messages_of "error" log).
  { unfold run_log.
    rewrite messages_of_app. simpl.
    rewrite messages_of_app, messages_of_prints. simpl.
    now rewrite app_nil_r. }
  destruct (_ =? 0)%Z; [exact H|].
  destruct (Py.getitem _ 1); exact H.
Qed.

End Runs.

(** ** The fan-out and the map over it *)

Lemma prepare_nextclade_inputs_map (samples : list Sample) (db : LatchDir) :
  prepare_nextclade_inputs samples db = map (input_of db) samples.
Proof.
  unfold prepare_nextclade_inputs.
  enough (G : forall acc,
    fold_left
      (fun inputs sample =>
         (inputs ++ [ {| name := sample_name sample;
                         fasta := sample_fasta sample;
                         database := db |} ])%list)
      samples acc
    = (acc ++ map (input_of db) samples)%list) by apply (G []).
  induction samples as [|s ss IH]; intros acc; simpl.
  - now rewrite app_nil_r.
  - rewrite IH, <- app_assoc. reflexivity.
Qed.

Section Outputs.

Variable resolve : string -> string.
Variable exec : list string -> process.

Lemma run_nextclade_Ret (nc_input : NextcladeInput) log d :
  fst (run_nextclade resolve exec nc_input log) = Ret d ->
  d = output_of resolve nc_input.
Proof.
  rewrite run_nextclade_run. cbv zeta.
  destruct (_ =? 0)%Z.
  - simpl. intros H. now inversion H.
  - destruct (Py.getitem _ 1); discriminate.
Qed.

Lemma run_nextclade_ok (nc_input : NextcladeInput) log :
  returncode (exec (run_nextclade_cmd nc_input)) = 0%Z ->
  run_nextclade resolve exec nc_input log =
  (Ret (output_of resolve nc_input), run_log exec nc_input log).
Proof.
  intros H. rewrite run_nextclade_run. cbv zeta. now rewrite H.
Qed.

End Outputs.

(** ** What a run logs *)

Lemma run_nextclade_log
    (resolve : string -> string) (exec : list string -> process)
    (nc_input : NextcladeInput) (log : list event) :
  snd (run_nextclade resolve exec nc_input log) = run_log exec nc_input log.
Proof.
  rewrite run_nextclade_run. cbv zeta.
  destruct (_ =? 0)%Z; [reflexivity|].
  destruct (Py.getitem _ 1); reflexivity.
Qed.

Lemma spawned_run_log
    (exec : list string -> process) (nc_input : NextcladeInput) log :
  spawned (run_log exec nc_input log)
  = (spawned log ++ [run_nextclade_cmd nc_input])%list.
Proof.
  unfold run_log. rewrite spawned_app. simpl.
  now rewrite spawned_app, spawned_prints.
Qed.

Lemma spawned_get_database
    (resolve : string -> string) (exec : list string -> process)
    (database_name : Database) log :
  spawned (snd (get_database resolve exec database_name log))
  = (spawned log ++ [get_database_cmd database_name])%list.
Proof.
  rewrite get_database_run. simpl. now rewrite spawned_app.
Qed.

(** ** Numbered lists *)


Lemma enumerate_map {A B} (f : A -> B) (k : nat) (xs : list A) :
  enumerate k (map f xs)
  = map (fun p => (fst p, f (snd p))) (enumerate k xs).
Proof.
  revert k. induction xs as [|x xs IH]; intros k; simpl; [|rewrite IH];
    reflexivity.
Qed.

Lemma nth_error_enumerate {A} (k n : nat) (xs : list A) :
  nth_error (enumerate k xs) n
  = option_map (fun x => (k + n, x)) (nth_error xs n).
Proof.
  revert k n. induction xs as [|x xs IH]; intros k n.
  - destruct n; reflexivity.
  - destruct n as [|n]; simpl.
    + now rewrite Nat.add_0_r.
    + rewrite IH. now rewrite Nat.add_succ_r.
Qed.

Lemma In_enumerate {A} (i : nat) (x : A) (xs : list A) :
  In (i, x) (enumerate 0 xs) <-> nth_error xs i = Some x.
Proof.
  split.
  - intros H. apply In_nth_error in H. destruct H as [n Hn].
    rewrite nth_error_enumerate in Hn.
    destruct (nth_error xs n) as [y|] eqn:E; [|discriminate].
    simpl in Hn. inversion Hn. subst. exact E.
  - intros H. apply (nth_error_In _ i).
    rewrite nth_error_enumerate, H. reflexivity.
Qed.

(** ** A mapped run *)

Lemma map_task_from_cons {A B}
    (receive : site -> A -> A) (deliver : site -> B -> B)
    (f : A -> io B) (k : nat) (x : A) (xs : list A) log :
  map_task_from receive deliver f k (x :: xs) log
  = match f (receive (AtRun k) x) log with
    | (Ret y, log1) =>
        match map_task_from receive deliver f (S k) xs log1 with
        | (Ret ys, log2) => (Ret (deliver (AtCaller k) y :: ys), log2)
        | (Raise e, log2) => (Raise e, log2)
        end
    | (Raise e, log1) => (Raise e, log1)
    end.
Proof.
  simpl. unfold bind.
  destruct (f (receive (AtRun k) x) log) as [[y|e] log1]; [|reflexivity].
  destruct (map_task_from receive deliver f (S k) xs log1)
    as [[ys|e] log2]; reflexivity.
Qed.

Section MappedRuns.

Variable resolve : string -> string.
Variable exec : list string -> process.
Variable placed : site -> string -> string.

Local Notation "'mapped'" :=
  (map_task_from (receive_input placed) (receive_dir placed)
     (run_nextclade resolve exec)).

Lemma mapped_Ret (k : nat) (inputs : list NextcladeInput) log outs :
  fst (mapped k inputs log) = Ret outs ->
  outs = map (mapped_output resolve placed) (enumerate k inputs).
Proof.
  revert k log outs.
  induction inputs as [|i rest IH]; intros k log outs.
  - simpl. intros H. now inversion H.
  - rewrite map_task_from_cons.
    destruct (run_nextclade resolve exec (receive_input placed (AtRun k) i)
                log) as [[d|e] log1] eqn:Hi; [|discriminate].
    destruct (mapped (S k) rest log1) as [[ds|e] log2] eqn:Hrest;
      [|discriminate].
    simpl. intros H. inversion H; subst outs.
    f_equal.
    + unfold mapped_output. simpl. f_equal.
      apply (run_nextclade_Ret resolve exec _ log). now rewrite Hi.
    + apply (IH (S k) log1). now rewrite Hrest.
Qed.

Lemma mapped_Ret_all (k : nat) (inputs : list NextcladeInput) log outs :
  fst (mapped k inputs log) = Ret outs ->
  forall p, In p (enumerate k inputs) ->
            returncode (exec (mapped_cmd placed p)) = 0%Z.
Proof.
  revert k log outs.
  induction inputs as [|i rest IH]; intros k log outs H p Hp;
    [destruct Hp|].
  rewrite map_task_from_cons in H.
  destruct (run_nextclade resolve exec (receive_input placed (AtRun k) i)
              log) as [[d|e] log1] eqn:Hi; [|discriminate].
  destruct (mapped (S k) rest log1) as [[ds|e] log2] eqn:Hrest;
    [|discriminate].
  destruct Hp as [<-|Hp].
  - apply (run_nextclade_returns_iff resolve exec
             (receive_input placed (AtRun k) i) log).
    exists d. now rewrite Hi.
  - apply (IH (S k) log1 ds); [now rewrite Hrest|exact Hp].
Qed.

Lemma mapped_ok (k : nat) (inputs : list NextcladeInput) log :
  (forall p, In p (enumerate k inputs) ->
             returncode (exec (mapped_cmd placed p)) = 0%Z) ->
  fst (mapped k inputs log)
  = Ret (map (mapped_output resolve placed) (enumerate k inputs))
  /\ spawned (snd (mapped k inputs log))
     = (spawned log ++ map (mapped_cmd placed) (enumerate k inputs))%list.
Proof.
  revert k log.
  induction inputs as [|i rest IH]; intros k log Hall.
  - simpl. now rewrite app_nil_r.
  - rewrite map_task_from_cons.
    rewrite (run_nextclade_ok resolve exec
               (receive_input placed (AtRun k) i) log
               (Hall (k, i) (or_introl eq_refl))).
    destruct (IH (S k) (run_log exec (receive_input placed (AtRun k) i) log)
                (fun p Hp => Hall p (or_intror Hp))) as [IH1 IH2].
    destruct (mapped (S k) rest
                (run_log exec (receive_input placed (AtRun k) i) log))
      as [[ds|e] log2]; simpl in IH1, IH2; [|discriminate].
    inversion IH1. subst ds. simpl. split; [reflexivity|].
    rewrite IH2, spawned_run_log, <- app_assoc. reflexivity.
Qed.

Lemma mapped_output_remote_paths (k : nat) (inputs : list NextcladeInput) :
  map remote_path (map (mapped_output resolve placed) (enumerate k inputs))
  = map (fun i => "latch:///nextclade_outputs/" ++ name i) inputs.
Proof.
  revert k. induction inputs as [|i rest IH]; intros k; [reflexivity|].
  simpl. now rewrite IH.
Qed.

Lemma mapped_no_error_message (k : nat) (inputs : list NextcladeInput) log :
  messages_of "error" (snd (mapped k inputs log))
  = messages_of "error" log.
Proof.
  revert k log.
  induction inputs as [|i rest IH]; intros k log; [reflexivity|].
  rewrite map_task_from_cons.
  pose proof (run_nextclade_no_error_message resolve exec
                (receive_input placed (AtRun k) i) log) as Hi.
  destruct (run_nextclade resolve exec (receive_input placed (AtRun k) i)
              log) as [[d|e] log1]; simpl in Hi; [|exact Hi].
  specialize (IH (S k) log1).
  destruct (mapped (S k) rest log1) as [[ds|e] log2];
    simpl in IH |- *; congruence.
Qed.

End MappedRuns.

(** ** The workflow, step by step *)

Section Steps.

Variable resolve : string -> string.
Variable exec : list string -> process.
Variable placed : site -> string -> string.

(** the inputs the mapped task is given, for a fetched database *)
Lemma nextclade_run
    (samples : list Sample) (database_name : Database) (log : list event) :
  nextclade resolve exec placed samples database_name log
  = map_task_from (receive_input placed) (receive_dir placed)
      (run_nextclade resolve exec) 0
      (map (fun sample =>
              input_of
                (receive_dir placed AtPrepare
                   {| local_path :=
                        resolve
                          ("nextclade_database/" ++ value database_name);
                      remote_path :=
                        "latch:///nextclade_database/"
                          ++ value database_name ++ "/" |})
                (receive_sample placed AtPrepare sample))
         samples)
      (snd (get_database resolve exec database_name log)).
Proof.
  unfold nextclade, map_task.
  rewrite (bind_Ret _ _ _ _ _ (get_database_run resolve exec _ _)).
  rewrite prepare_nextclade_inputs_map, map_map.
  rewrite get_database_run. reflexivity.
Qed.

Lemma In_enumerate_map {A B} (f : A -> B) (xs : list A) (p : nat * B) :
  In p (enumerate 0 (map f xs))
  <-> exists x, nth_error xs (fst p) = Some x /\ snd p = f x.
Proof.
  rewrite enumerate_map, in_map_iff. split.
  - intros [[i x] [<- H]]. apply In_enumerate in H. simpl. eauto.
  - intros [x [H E]]. exists (fst p, x). split.
    + destruct p as [i y]. simpl in *. now subst y.
    + now apply In_enumerate.
Qed.

End Steps.


(** ** The outcome of [run_nextclade] *)

(** C1: a run is claimed to return a directory reference exactly on exit
    code 0 and to raise the generic RuntimeError exactly on a nonzero one.
    On a worker where the tool exits with 1 and writes nothing, the run
    does raise, but what it raises is IndexError, from [stdout[1]], before
    [raise RuntimeError] is reached. *)
Theorem run_nextclade_silent_failure_raises_IndexError :
  returncode (Demo.exec_silent_failure (run_nextclade_cmd Demo.input1)) = 1%Z
  /\ fst (run_nextclade Demo.resolve Demo.exec_silent_failure Demo.input1 [])
     = Raise IndexError
  /\ fst (run_nextclade Demo.resolve Demo.exec_silent_failure Demo.input1 [])
     <> Raise RuntimeError.
Proof.
  split; [reflexivity|].
  rewrite run_nextclade_run.
  split; [reflexivity|discriminate].
Qed.

(** C2: on a nonzero exit the run is claimed to scan the whole captured
    text for [Message.*] and to send every match as an error message before
    raising.  On a worker where the tool exits with 1 after the two lines
    [Error: ] and [Message: unable to read dataset], the whole text holds
    that match, yet the run sends no message of level [error]: the scan is
    given the one character [stdout[1]]. *)
Theorem run_nextclade_reported_failure_sends_no_error :
  let p := Demo.exec_reported_failure (run_nextclade_cmd Demo.input1) in
  let result :=
    run_nextclade Demo.resolve Demo.exec_reported_failure Demo.input1 [] in
  returncode p = 1%Z
  /\ Py.findall_Message (Py.join Py.LF (stdout p))
     = ["Message: unable to read dataset"]
  /\ Py.getitem (Py.join Py.LF (stdout p)) 1 = Some "r"
  /\ fst result = Raise RuntimeError
  /\ messages_of "error" (snd result) = [].
Proof.
  cbv zeta. repeat split; reflexivity.
Qed.

(** C3: [stdout[1]] is claimed to be in bounds for every captured output.
    Whenever the tool exits nonzero and the captured text has fewer than
    two characters, the index is out of bounds and the run ends in
    IndexError, not in the generic error. *)
Theorem run_nextclade_short_output_IndexError
    (resolve : string -> string) (exec : list string -> process)
    (nc_input : NextcladeInput) (log : list event) :
  returncode (exec (run_nextclade_cmd nc_input)) <> 0%Z ->
  String.length
    (Py.join Py.LF (stdout (exec (run_nextclade_cmd nc_input)))) < 2 ->
  Py.getitem (Py.join Py.LF (stdout (exec (run_nextclade_cmd nc_input)))) 1
    = None
  /\ fst (run_nextclade resolve exec nc_input log) = Raise IndexError.
Proof.
  intros Hrc Hlen.
  assert (Hget :
    Py.getitem (Py.join Py.LF (stdout (exec (run_nextclade_cmd nc_input)))) 1
    = None).
  { apply getitem_None.
    pose proof (len_le_length
      (Py.join Py.LF (stdout (exec (run_nextclade_cmd nc_input))))).
    lia. }
  split; [exact Hget|].
  rewrite run_nextclade_run. cbv zeta.
  apply Z.eqb_neq in Hrc. rewrite Hrc, Hget. reflexivity.
Qed.

Lemma run_nextclade_short_output_IndexError_witness :
  returncode (Demo.exec_killed (run_nextclade_cmd Demo.input1)) <> 0%Z
  /\ String.length
       (Py.join Py.LF (stdout (Demo.exec_killed (run_nextclade_cmd Demo.input1))))
     < 2
  /\ fst (run_nextclade Demo.resolve Demo.exec_killed Demo.input1 [])
     = Raise IndexError.
Proof.
  assert (Hrc :
    returncode (Demo.exec_killed (run_nextclade_cmd Demo.input1)) <> 0%Z)
    by (simpl; lia).
  assert (Hlen :
    String.length
      (Py.join Py.LF (stdout (Demo.exec_killed (run_nextclade_cmd Demo.input1))))
    < 2) by (simpl; lia).
  split; [exact Hrc|]. split; [exact Hlen|].
  exact (proj2 (run_nextclade_short_output_IndexError
                  Demo.resolve Demo.exec_killed Demo.input1 [] Hrc Hlen)).
Defined.

(** ** The database download *)

(** C4: [get_database] never looks at the exit code of the download: for
    every member of [Database] and whatever the spawned command does, it
    raises nothing and returns the directory whose local path is
    [nextclade_database/<value>], resolved on the worker, and whose remote
    path is [latch:///nextclade_database/<value>/]; two workers that
    resolve paths alike get the same answer whatever their downloads did. *)
Theorem get_database_ignores_exit_code
    (resolve : string -> string) (exec exec' : list string -> process)
    (database_name : Database) (log : list event) :
  fst (get_database resolve exec database_name log)
  = Ret {| local_path :=
             resolve ("nextclade_database/" ++ value database_name);
           remote_path :=
             "latch:///nextclade_database/" ++ value database_name ++ "/" |}
  /\ fst (get_database resolve exec database_name log)
     = fst (get_database resolve exec' database_name log).
Proof.
  rewrite !get_database_run. split; reflexivity.
Qed.

(** ** The fan-out *)

(** C5: [prepare_nextclade_inputs] returns as many inputs as there are
    samples, in the order of the samples; the i-th input has the name and
    the fasta of the i-th sample, and every input has the one database
    that was passed. *)
Theorem prepare_nextclade_inputs_pointwise
    (samples : list Sample) (database : LatchDir) :
  List.length (prepare_nextclade_inputs samples database)
  = List.length samples
  /\ forall i : nat,
       nth_error (prepare_nextclade_inputs samples database) i
       = option_map
           (fun sample =>
              {| name := sample_name sample;
                 fasta := sample_fasta sample;
                 database := database |})
           (nth_error samples i).
Proof.
  rewrite prepare_nextclade_inputs_map. split.
  - apply length_map.
  - intros i. apply nth_error_map.
Qed.

(** ** The workflow *)



(** ** The command lines *)

(** C7: the tool is spawned with fixed command lines: [get_database]
    spawns [nextclade dataset get --name <value> --output-dir
    nextclade_database/<value>] and nothing else, and [run_nextclade]
    spawns [nextclade run --input-dataset <database local path>
    --output-all <name> <fasta local path>] and nothing else, whatever the
    input and whatever the tool answers. *)
Theorem nextclade_command_lines
    (resolve : string -> string) (exec : list string -> process)
    (database_name : Database) (nc_input : NextcladeInput) :
  spawned (snd (get_database resolve exec database_name []))
  = [ [ "nextclade"; "dataset"; "get";
        "--name"; value database_name;
        "--output-dir"; "nextclade_database/" ++ value database_name ] ]
  /\ spawned (snd (run_nextclade resolve exec nc_input []))
     = [ [ "nextclade"; "run";
           "--input-dataset"; local_path (database nc_input);
           "--output-all"; name nc_input;
           file_local_path (fasta nc_input) ] ].
Proof.
  split.
  - now rewrite spawned_get_database.
  - now rewrite run_nextclade_log, spawned_run_log.
Qed.

(** ** Reading the child's output *)

(** C8, as claimed: the text [_capture_output] returns is the
    concatenation of the lines read.  It is not: after the two lines
    [Error: ] and [Message: unable to read dataset], each with its line
    feed, the text returned has one more line feed between them. *)
Lemma capture_output_not_verbatim :
  ~ (forall (exec : list string -> process) (command : list string)
            (log : list event),
       fst (_capture_output exec command log)
       = Ret (returncode (exec command),
              Py.join "" (stdout (exec command)))).
Proof.
  intros H.
  specialize (H Demo.exec_reported_failure ["nextclade"] []).
  rewrite _capture_output_run in H. simpl in H.
  discriminate H.
Qed.

(** C8, amended: [_capture_output] returns the exit code of the process
    together with the lines of its combined output joined by a line feed,
    that is, each line as read followed, unless it is the last, by one more
    line feed: the text is longer than the lines together by the number of
    lines less one. *)
Theorem capture_output_joins_lines
    (exec : list string -> process) (command : list string)
    (log : list event) :
  fst (_capture_output exec command log)
  = Ret (returncode (exec command),
         String.concat Py.LF (stdout (exec command)))
  /\ String.length (String.concat Py.LF (stdout (exec command)))
     = Py.total_length (stdout (exec command))
       + (List.length (stdout (exec command)) - 1).
Proof.
  rewrite _capture_output_run. split; [reflexivity|].
  change (String.concat Py.LF (stdout (exec command)))
    with (Py.join Py.LF (stdout (exec command))).
  rewrite join_length. simpl. lia.
Qed.

(** ** Where the outputs go *)

(** C9: the output locations of a run depend on the name of the input
    only: two inputs of the same name, whatever their fasta and database
    and whatever the tool printed, pass the same directory name to the
    tool, and when both runs return, they return the same directory
    reference, with remote path [latch:///nextclade_outputs/<name>]. *)
Theorem run_nextclade_output_depends_on_name
    (resolve : string -> string) (exec1 exec2 : list string -> process)
    (in1 in2 : NextcladeInput) (log1 log2 : list event) (d1 d2 : LatchDir) :
  name in1 = name in2 ->
  fst (run_nextclade resolve exec1 in1 log1) = Ret d1 ->
  fst (run_nextclade resolve exec2 in2 log2) = Ret d2 ->
  output_dirname in1 = output_dirname in2
  /\ d1 = d2
  /\ local_path d1 = resolve (name in1)
  /\ remote_path d1 = "latch:///nextclade_outputs/" ++ name in1.
Proof.
  intros Hname H1 H2.
  apply run_nextclade_Ret in H1. apply run_nextclade_Ret in H2.
  subst d1 d2. unfold output_dirname, output_of. rewrite Hname.
  repeat split.
Qed.

Lemma run_nextclade_output_depends_on_name_witness :
  name Demo.input1 = name Demo.input1'
  /\ fasta Demo.input1 <> fasta Demo.input1'
  /\ database Demo.input1 <> database Demo.input1'
  /\ fst (run_nextclade Demo.resolve Demo.exec_ok Demo.input1 [])
     = Ret {| local_path := "/root/cluster_cov";
              remote_path := "latch:///nextclade_outputs/cluster_cov" |}
  /\ fst (run_nextclade Demo.resolve Demo.exec_ok Demo.input1' [])
     = Ret {| local_path := "/root/cluster_cov";
              remote_path := "latch:///nextclade_outputs/cluster_cov" |}
  /\ output_dirname Demo.input1 = output_dirname Demo.input1'.
Proof.
  split; [reflexivity|].
  split; [discriminate|].
  split; [discriminate|].
  split; [reflexivity|].
  split; [reflexivity|].
  exact (proj1 (run_nextclade_output_depends_on_name
                  Demo.resolve Demo.exec_ok Demo.exec_ok
                  Demo.input1 Demo.input1' [] [] _ _
                  eq_refl eq_refl eq_refl)).
Defined.

(** ** Retries *)

(** C10: the per-sample task is declared with [retries=3], and the tasks
    themselves never try again: one call of [run_nextclade] or of
    [get_database] spawns the tool exactly once, whatever its exit code. *)
Theorem three_retries_and_one_spawn_per_call
    (resolve : string -> string) (exec : list string -> process)
    (database_name : Database) (nc_input : NextcladeInput)
    (log : list event) :
  retries run_nextclade_settings = 3
  /\ List.length (spawned (snd (run_nextclade resolve exec nc_input log)))
     = S (List.length (spawned log))
  /\ List.length (spawned (snd (get_database resolve exec database_name log)))
     = S (List.length (spawned log)).
Proof.
  split; [reflexivity|].
  rewrite run_nextclade_log, spawned_run_log, spawned_get_database.
  rewrite !length_app. simpl. split; lia.
Qed.

(** ** More on [run_nextclade] *)

(** X1: the outcome of a run, in full: the output directory of the name
    when the tool exits with 0; otherwise RuntimeError when the captured
    text has at least two characters, and IndexError when it has fewer. *)
Theorem run_nextclade_outcome
    (resolve : string -> string) (exec : list string -> process)
    (nc_input : NextcladeInput) (log : list event) :
  fst (run_nextclade resolve exec nc_input log)
  = if (returncode (exec (run_nextclade_cmd nc_input)) =? 0)%Z
    then Ret {| local_path := resolve (name nc_input);
                remote_path :=
                  "latch:///nextclade_outputs/" ++ name nc_input |}
    else if Nat.leb 2
              (Py.len
                 (String.concat Py.LF
                    (stdout (exec (run_nextclade_cmd nc_input)))))
         then Raise RuntimeError
         else Raise IndexError.
Proof.
  rewrite run_nextclade_run. cbv zeta.
  destruct (_ =? 0)%Z; [reflexivity|].
  unfold Py.join.
  destruct (Py.getitem _ 1) as [c|] eqn:H.
  - assert (L : 1 < Py.len
                      (String.concat Py.LF
                         (stdout (exec (run_nextclade_cmd nc_input)))))
      by (apply getitem_Some_iff; eauto).
    apply Nat.leb_le in L. now rewrite L.
  - apply getitem_None in H.
    destruct (Nat.leb_spec 2
                (Py.len
                   (String.concat Py.LF
                      (stdout (exec (run_nextclade_cmd nc_input))))));
      [lia|reflexivity].
Qed.

Lemma len_join_cons (sep x : string) (xs : list string) :
  Py.len x <= Py.len (Py.join sep (x :: xs)).
Proof.
  unfold Py.join. destruct xs as [|y ys]; [simpl; lia|].
  change (String.concat sep (x :: y :: ys))
    with (x ++ sep ++ String.concat sep (y :: ys)).
  rewrite len_append. lia.
Qed.

Lemma join_LF_short (lines : list string) :
  (forall line, In line lines -> 1 <= Py.len line) ->
  (Py.len (Py.join Py.LF lines) < 2
   <-> lines = [] \/ exists line, lines = [line] /\ Py.len line = 1).
Proof.
  intros Hne.
  destruct lines as [|l1 [|l2 rest]].
  - simpl. split; [auto|lia].
  - assert (H1 : 1 <= Py.len l1) by (apply Hne; now left).
    change (Py.join Py.LF [l1]) with l1. split.
    + intros H. right. exists l1. split; [reflexivity|lia].
    + intros [H|[line [H E]]]; [discriminate|]. inversion H. lia.
  - assert (H1 : 1 <= Py.len l1) by (apply Hne; now left).
    assert (H2 : 1 <= Py.len l2) by (apply Hne; right; now left).
    pose proof (len_join_cons Py.LF l2 rest) as H3.
    change (Py.join Py.LF (l1 :: l2 :: rest))
      with (l1 ++ Py.LF ++ Py.join Py.LF (l2 :: rest)).
    rewrite !len_append. change (Py.len Py.LF) with 1.
    split; [lia|]. intros [H|[line [H _]]]; discriminate.
Qed.

(** X2: when the tool exits nonzero, the run ends in IndexError exactly
    when the tool wrote nothing at all or a single line of a single
    character (Python never hands over a line without a character). *)
Theorem run_nextclade_IndexError_iff
    (resolve : string -> string) (exec : list string -> process)
    (nc_input : NextcladeInput) (log : list event) :
  (forall line, In line (stdout (exec (run_nextclade_cmd nc_input))) ->
                1 <= Py.len line) ->
  returncode (exec (run_nextclade_cmd nc_input)) <> 0%Z ->
  (fst (run_nextclade resolve exec nc_input log) = Raise IndexError
   <-> stdout (exec (run_nextclade_cmd nc_input)) = []
       \/ exists line,
            stdout (exec (run_nextclade_cmd nc_input)) = [line]
            /\ Py.len line = 1).
Proof.
  intros Hne Hrc.
  rewrite <- (join_LF_short _ Hne).
  rewrite run_nextclade_run. cbv zeta.
  apply Z.eqb_neq in Hrc. rewrite Hrc.
  destruct (Py.getitem _ 1) as [c|] eqn:H.
  - split; [discriminate|]. intros L.
    assert (G : 1 < Py.len
                      (Py.join Py.LF
                         (stdout (exec (run_nextclade_cmd nc_input)))))
      by (apply getitem_Some_iff; eauto).
    lia.
  - apply getitem_None in H. split; [lia|reflexivity].
Qed.

Lemma run_nextclade_IndexError_iff_witness :
  (forall line,
     In line (stdout (Demo.exec_wide_character
                        (run_nextclade_cmd Demo.input1))) ->
     1 <= Py.len line)
  /\ returncode (Demo.exec_wide_character (run_nextclade_cmd Demo.input1))
     <> 0%Z
  /\ String.length Demo.wide_character = 3
  /\ fst (run_nextclade Demo.resolve Demo.exec_wide_character
            Demo.input1 [])
     = Raise IndexError.
Proof.
  assert (Hne : forall line,
     In line (stdout (Demo.exec_wide_character
                        (run_nextclade_cmd Demo.input1))) ->
     1 <= Py.len line).
  { simpl. intros line [H|[]]. subst line. apply Nat.le_refl. }
  assert (Hrc :
    returncode (Demo.exec_wide_character (run_nextclade_cmd Demo.input1))
    <> 0%Z) by (simpl; lia).
  split; [exact Hne|]. split; [exact Hrc|]. split; [reflexivity|].
  apply (run_nextclade_IndexError_iff
           Demo.resolve Demo.exec_wide_character Demo.input1 [] Hne Hrc).
  right. exists Demo.wide_character. split; reflexivity.
Defined.

(** X4: whatever the outcome, a run adds to the log the spawn, then one
    print per line read, and last one message of level [info] whose body is
    the command line with single spaces between its words: the message
    follows the end of the tool, and no other message is sent. *)
Theorem run_nextclade_events
    (resolve : string -> string) (exec : list string -> process)
    (nc_input : NextcladeInput) (log : list event) :
  snd (run_nextclade resolve exec nc_input log)
  = (log
     ++ EvSpawn (run_nextclade_cmd nc_input)
        :: map EvPrint (stdout (exec (run_nextclade_cmd nc_input)))
     ++ [ EvMessage "info"
            ("Executing NextClade for " ++ name nc_input)
            ("nextclade run --input-dataset "
               ++ local_path (database nc_input)
               ++ " --output-all " ++ name nc_input
               ++ " " ++ file_local_path (fasta nc_input)) ])%list.
Proof.
  rewrite run_nextclade_log. reflexivity.
Qed.

(** ** More on [_capture_output] *)

(** X5: the text [_capture_output] returns is the lines as read, one after
    the other, exactly when at most one line was read. *)
Theorem capture_output_verbatim_iff
    (exec : list string -> process) (command : list string)
    (log : list event) :
  fst (_capture_output exec command log)
  = Ret (returncode (exec command),
         String.concat "" (stdout (exec command)))
  <-> List.length (stdout (exec command)) <= 1.
Proof.
  rewrite _capture_output_run. cbn [fst].
  split.
  - intros H. inversion H as [E].
    apply (f_equal String.length) in E.
    change (String.concat "" (stdout (exec command)))
      with (Py.join "" (stdout (exec command))) in E.
    rewrite !join_length in E. simpl in E. lia.
  - intros H. destruct (stdout (exec command)) as [|l [|l' rest]].
    + reflexivity.
    + reflexivity.
    + simpl in H. lia.
Qed.

(** X6: what [_capture_output] does with a process: it spawns the
    command once and then prints every line read, once each and in the
    order read, and does nothing else; with no line read it only spawns. *)
Theorem capture_output_events
    (exec : list string -> process) (command : list string)
    (log : list event) :
  snd (_capture_output exec command log)
  = (log ++ EvSpawn command
          :: map EvPrint (stdout (exec command)))%list.
Proof.
  rewrite _capture_output_run. reflexivity.
Qed.

(** ** More on the workflow *)

Lemma append_inj_l (p a b : string) : p ++ a = p ++ b -> a = b.
Proof.
  induction p as [|c p IH]; simpl; intros H; [exact H|].
  inversion H. auto.
Qed.

(** X3: the workflow never sends a message of level [error], whatever the
    tool wrote and however it exited. *)
Theorem nextclade_no_error_message
    (resolve : string -> string) (exec : list string -> process)
    (placed : site -> string -> string)
    (samples : list Sample) (database_name : Database) (log : list event) :
  messages_of "error"
    (snd (nextclade resolve exec placed samples database_name log))
  = messages_of "error" log.
Proof.
  rewrite nextclade_run, mapped_no_error_message, get_database_run.
  cbn [snd]. rewrite messages_of_app. simpl. now rewrite app_nil_r.
Qed.

(** X9: the workflow returns exactly when the tool exits with 0 on the
    run of every sample, the run of the i-th sample being given the copy
    of the database directory and the copy of the fasta file that the
    platform placed for it; the exit code of the download plays no part. *)
Theorem nextclade_returns_iff
    (resolve : string -> string) (exec : list string -> process)
    (placed : site -> string -> string)
    (samples : list Sample) (database_name : Database) (log : list event) :
  (exists outs,
     fst (nextclade resolve exec placed samples database_name log)
     = Ret outs)
  <-> forall i sample,
        nth_error samples i = Some sample ->
        returncode
          (exec [ "nextclade"; "run";
                  "--input-dataset";
                  placed (AtRun i)
                    ("latch:///nextclade_database/"
                       ++ value database_name ++ "/");
                  "--output-all"; sample_name sample;
                  placed (AtRun i)
                    (file_remote_path (sample_fasta sample)) ])
        = 0%Z.
Proof.
  rewrite nextclade_run. split.
  - intros [outs H] i sample Hi.
    match type of H with
    | context [map ?F samples] =>
        apply (mapped_Ret_all _ _ _ _ _ _ _ H (i, F sample))
    end.
    apply In_enumerate_map. exists sample. split; [exact Hi|reflexivity].
  - intros Hall. eexists. apply mapped_ok.
    intros p Hp. apply In_enumerate_map in Hp.
    destruct Hp as [sample [Hi E]]. destruct p as [i nc_input].
    simpl in Hi, E. subst nc_input.
    exact (Hall i sample Hi).
Qed.

(** X10: on no samples the workflow returns the empty list; the database
    is downloaded all the same, and nothing else is spawned. *)
Theorem nextclade_no_samples
    (resolve : string -> string) (exec : list string -> process)
    (placed : site -> string -> string)
    (database_name : Database) (log : list event) :
  fst (nextclade resolve exec placed [] database_name log) = Ret []
  /\ spawned (snd (nextclade resolve exec placed [] database_name log))
     = (spawned log
        ++ [ [ "nextclade"; "dataset"; "get";
               "--name"; value database_name;
               "--output-dir";
               ("nextclade_database/" ++ value database_name)%string ] ])%list.
Proof.
  rewrite nextclade_run.
  unfold map, map_task_from, ret. cbn [fst snd].
  split; [reflexivity|apply spawned_get_database].
Qed.

(** X14: when the workflow returns, it has spawned the download and then
    exactly one run per sample, each with the name of its sample and with
    the copies of the database directory and of the sample's fasta file
    that the platform placed for that run. *)
Theorem nextclade_spawns_one_run_per_sample
    (resolve : string -> string) (exec : list string -> process)
    (placed : site -> string -> string)
    (samples : list Sample) (database_name : Database) (outs : list LatchDir) :
  fst (nextclade resolve exec placed samples database_name []) = Ret outs ->
  spawned (snd (nextclade resolve exec placed samples database_name []))
  = [ "nextclade"; "dataset"; "get";
      "--name"; value database_name;
      "--output-dir"; "nextclade_database/" ++ value database_name ]
    :: map (fun p =>
              [ "nextclade"; "run";
                "--input-dataset";
                placed (AtRun (fst p))
                  ("latch:///nextclade_database/"
                     ++ value database_name ++ "/");
                "--output-all"; sample_name (snd p);
                placed (AtRun (fst p))
                  (file_remote_path (sample_fasta (snd p))) ])
         (enumerate 0 samples).
Proof.
  rewrite nextclade_run. intros H.
  pose proof (mapped_Ret_all _ _ _ _ _ _ _ H) as Hall.
  destruct (mapped_ok resolve exec placed 0 _
              (snd (get_database resolve exec database_name [])) Hall)
    as [_ Hs].
  rewrite Hs, spawned_get_database, enumerate_map, map_map.
  reflexivity.
Qed.

Lemma nextclade_spawns_one_run_per_sample_witness :
  (exists outs,
     fst (nextclade Demo.resolve Demo.exec_ok Demo.placed Demo.samples
            sars_cov_2 [])
     = Ret outs)
  /\ spawned
       (snd (nextclade Demo.resolve Demo.exec_ok Demo.placed Demo.samples
               sars_cov_2 []))
     = [ [ "nextclade"; "dataset"; "get"; "--name"; "sars-cov-2";
           "--output-dir"; "nextclade_database/sars-cov-2" ];
         [ "nextclade"; "run"; "--input-dataset";
           "/run/latch:///nextclade_database/sars-cov-2/";
           "--output-all"; "cluster_cov";
           "/run/s3://latch-public/test-data/4318/cluster_cov.fasta" ];
         [ "nextclade"; "run"; "--input-dataset";
           "/run/latch:///nextclade_database/sars-cov-2/";
           "--output-all"; "sars_sequences";
           "/run/s3://latch-public/test-data/4318/sars_sequences.fasta" ] ].
Proof.
  split; [eexists; reflexivity|].
  exact (nextclade_spawns_one_run_per_sample
           Demo.resolve Demo.exec_ok Demo.placed Demo.samples sars_cov_2
           _ eq_refl).
Defined.

(** ** Where things are stored *)

(** X7: two downloads go to the same remote path exactly when they are
    for the same member of [Database]: no two databases share a place. *)
Theorem get_database_remote_path_inj
    (resolve : string -> string) (exec exec' : list string -> process)
    (d1 d2 : Database) (log log' : list event) (r1 r2 : LatchDir) :
  fst (get_database resolve exec d1 log) = Ret r1 ->
  fst (get_database resolve exec' d2 log') = Ret r2 ->
  (remote_path r1 = remote_path r2 <-> d1 = d2).
Proof.
  rewrite !get_database_run. cbn [fst].
  intros H1 H2. inversion H1; inversion H2; subst r1 r2. cbn [remote_path].
  split; [|now intros ->].
  intros H.
  destruct d1, d2; try reflexivity; discriminate H.
Qed.

Lemma get_database_remote_path_inj_witness :
  fst (get_database Demo.resolve Demo.exec_ok MPXV [])
  = Ret {| local_path := "/root/nextclade_database/MPXV";
           remote_path := "latch:///nextclade_database/MPXV/" |}
  /\ fst (get_database Demo.resolve Demo.exec_silent_failure hMPXV [])
     = Ret {| local_path := "/root/nextclade_database/hMPXV";
              remote_path := "latch:///nextclade_database/hMPXV/" |}
  /\ "latch:///nextclade_database/MPXV/"
     <> "latch:///nextclade_database/hMPXV/".
Proof.
  split; [reflexivity|]. split; [reflexivity|].
  intros H.
  apply (get_database_remote_path_inj
           Demo.resolve Demo.exec_ok Demo.exec_silent_failure
           MPXV hMPXV [] [] _ _ eq_refl eq_refl) in H.
  discriminate H.
Defined.

Lemma NoDup_map_inj {A B} (f : A -> B) (l : list A) :
  (forall x y, f x = f y -> x = y) ->
  NoDup l -> NoDup (map f l).
Proof.
  intros Hinj H. induction H as [|x l Hx Hl IH]; simpl; constructor; auto.
  intros Hin. apply in_map_iff in Hin. destruct Hin as [y [Hy Hin]].
  apply Hinj in Hy. now subst y.
Qed.

(** X8: when the workflow returns, the remote paths of the outputs are
    pairwise distinct exactly when the names of the samples are: samples
    with distinct names never share an output place, samples of one name
    always do. *)
Theorem nextclade_outputs_distinct_iff
    (resolve : string -> string) (exec : list string -> process)
    (placed : site -> string -> string)
    (samples : list Sample) (database_name : Database)
    (log : list event) (outs : list LatchDir) :
  fst (nextclade resolve exec placed samples database_name log) = Ret outs ->
  (NoDup (map remote_path outs) <-> NoDup (map sample_name samples)).
Proof.
  rewrite nextclade_run.
  intros H. apply mapped_Ret in H. subst outs.
  rewrite mapped_output_remote_paths, map_map.
  cbn [input_of receive_sample name].
  rewrite <- (map_map sample_name
                (fun n => "latch:///nextclade_outputs/" ++ n)).
  split.
  - apply NoDup_map_inv.
  - apply NoDup_map_inj. intros x y. apply append_inj_l.
Qed.

Lemma nextclade_outputs_distinct_iff_witness :
  fst (nextclade Demo.resolve Demo.exec_ok Demo.placed Demo.samples
         sars_cov_2 [])
  = Ret [ {| local_path := "/caller/latch:///nextclade_outputs/cluster_cov";
             remote_path := "latch:///nextclade_outputs/cluster_cov" |};
          {| local_path :=
               "/caller/latch:///nextclade_outputs/sars_sequences";
             remote_path := "latch:///nextclade_outputs/sars_sequences" |} ]
  /\ NoDup [ "latch:///nextclade_outputs/cluster_cov";
             "latch:///nextclade_outputs/sars_sequences" ].
Proof.
  split; [reflexivity|].
  apply (nextclade_outputs_distinct_iff
           Demo.resolve Demo.exec_ok Demo.placed Demo.samples sars_cov_2
           [] _ eq_refl).
  simpl. constructor.
  - intros [H|[]]. discriminate H.
  - constructor; [intros []|constructor].
Defined.

(** ** The message of the download *)

(** X12: [get_database] sends one message of level [info] and then spawns
    the download, and does nothing else; the body of the message holds the
    words of the command run together, with nothing between them. *)
Theorem get_database_events
    (resolve : string -> string) (exec : list string -> process)
    (database_name : Database) (log : list event) :
  snd (get_database resolve exec database_name log)
  = (log
     ++ [ EvMessage "info"
            ("Downloading NextClade database " ++ value database_name)
            ("Running command: nextcladedatasetget--name"
               ++ value database_name
               ++ "--output-dirnextclade_database/"
               ++ value database_name);
          EvSpawn [ "nextclade"; "dataset"; "get";
                    "--name"; value database_name;
                    "--output-dir";
                    ("nextclade_database/" ++ value database_name)%string ]
        ])%list.
Proof.
  rewrite get_database_run. reflexivity.
Qed.
